(** * shotty: instance selection and snapshot orchestration

    A shallow embedding of [shotty/shotty.py].  The cloud provider (boto3's
    EC2 resource, the spec's "Inventory Service") is external to the
    program: its answers are data of the model, and every request the
    program sends to it, like every line it prints, is recorded in a trace. *)

From stdpp Require Import base option list strings pretty gmap.

Open Scope string_scope.
Open Scope list_scope.

(** ** Data model: the resources as the provider hands them out *)

(** A snapshot as [v.snapshots.all()] yields it.  [s_start_time] is the
    text [s.start_time.strftime("%c")] renders. *)
Record Snapshot := mkSnapshot {
  s_id : string;
  s_state : string;
  s_progress : string;
  s_start_time : string
}.

(** A volume, with the listing [v.snapshots.all()] returns, in the order
    the service returns it. *)
Record Volume := mkVolume {
  v_id : string;
  v_state : string;
  v_size : Z;
  v_encrypted : bool;
  v_snapshots : list Snapshot
}.

(** One entry of [i.tags]: a dict with the keys ['Key'] and ['Value']. *)
Record Tag := mkTag {
  Key : string;
  Value : string
}.

(** An instance.  [i_tags] is [None] where boto3 gives [i.tags = None];
    [i_state] is [i.state['Name']], [i_zone] is
    [i.placement['AvailabilityZone']], [i_volumes] is [i.volumes.all()]. *)
Record Instance := mkInstance {
  i_id : string;
  i_instance_type : string;
  i_zone : string;
  i_state : string;
  i_public_dns_name : string;
  i_tags : option (list Tag);
  i_volumes : list Volume
}.

(** ** Python values and truth *)

(** A command-line option that was not given is [None].  [if x:] holds for
    a string that is given and not empty; [given x] is then that string. *)
Definition given (x : option string) : option string :=
  match x with
  | None => None
  | Some s => if String.eqb s "" then None else Some s
  end.

Definition truthy (x : option string) : bool :=
  match given x with
  | Some _ => true
  | None => false
  end.

(** The two kinds of value [has_pending_snapshot] can return. *)
Inductive pyval :=
| PyList (l : list Snapshot)
| PyBool (b : bool).

(** [bool(x)]: a list is true when it is not empty. *)
Definition is_true (x : pyval) : bool :=
  match x with
  | PyList [] => false
  | PyList (_ :: _) => true
  | PyBool b => b
  end.

(** ** Selector *)

(** One element of the [Filters=] argument. *)
Record Filter := mkFilter {
  Name : string;
  Values : list string
}.

(** What [filter_instances] returns: a collection that has not been
    fetched yet, [ec2.instances.filter(Filters=...)] or
    [ec2.instances.all()]. *)
Inductive collection :=
| instances_filter (Filters : list Filter)
| instances_all.

Definition filter_instances (project instance : option string) : collection :=
  match given instance, given project with
  | Some instance, _ =>
      let filters := [mkFilter "instance-id" [instance]] in
      instances_filter filters
  | None, Some project =>
      let filters := [mkFilter "tag:Project" [project]] in
      instances_filter filters
  | None, None =>
      instances_all
  end.

(** ** Snapshot Guard *)

(** [snapshots and snapshots[0].state == 'pending']: [and] returns its left
    operand when that is false, so an empty listing is returned as it is and
    [snapshots[0]] is only evaluated on a listing that has a first element. *)
Definition has_pending_snapshot (volume : Volume) : pyval :=
  let snapshots := v_snapshots volume in
  match snapshots with
  | [] => PyList snapshots
  | s0 :: _ => PyBool (String.eqb (s_state s0) "pending")
  end.

(** ** Requests, output and exceptions *)

(** The requests the commands send to the provider, each on the object
    whose method is called. *)
Inductive request :=
| stop (i : Instance)
| wait_until_stopped (i : Instance)
| start (i : Instance)
| wait_until_running (i : Instance)
| reboot (i : Instance)
| create_snapshot (v : Volume) (Description : string).

(** The exceptions a run can end with: [botocore.exceptions.ClientError],
    botocore's [WaiterError] (which is not a [ClientError]), and the plain
    [Exception] of the configuration gate.  Each carries its [str(e)]. *)
Inductive exn :=
| ClientError (msg : string)
| WaiterError (msg : string)
| Exception (msg : string).

(** What a run leaves behind, in order. *)
Inductive event :=
| Call (r : request)
| Print (line : string).

Inductive outcome (A : Type) :=
| Returns (a : A)
| Raises (e : exn).
Arguments Returns {A} a.
Arguments Raises {A} e.

(** A computation: the events it produced and how it ended. *)
Record run (A : Type) := Run {
  log : list event;
  res : outcome A
}.
Arguments Run {A} log res.
Arguments log {A} r.
Arguments res {A} r.

#[global] Instance run_ret : MRet run := fun A a => Run [] (Returns a).

(** Sequencing: an exception ends the computation where it is raised. *)
#[global] Instance run_bind : MBind run := fun A B k m =>
  match res m with
  | Returns a => let m' := k a in Run (log m ++ log m') (res m')
  | Raises e => Run (log m) (Raises e)
  end.

Definition raise {A : Type} (e : exn) : run A := Run [] (Raises e).

Definition print (line : string) : run unit := Run [Print line] (Returns tt).

(** [try: m  except botocore.exceptions.ClientError as e: handler (str e)];
    any other exception passes through. *)
Definition try_except_ClientError {A : Type}
    (m : run A) (handler : string -> run A) : run A :=
  match res m with
  | Raises (ClientError msg) =>
      let h := handler msg in Run (log m ++ log h) (res h)
  | _ => m
  end.

(** How the body of a [for] loop ends: by reaching its end or a
    [continue], or by a [break]. *)
Inductive flow := Continue | Break.

Fixpoint for_each {A : Type} (xs : list A) (body : A -> run flow) : run unit :=
  match xs with
  | [] => mret tt
  | x :: xs' =>
      c ← body x;
      match c with
      | Continue => for_each xs' body
      | Break => mret tt
      end
  end.

(** ** The provider *)

(** The global [ec2]: the instances the account holds, and how the provider
    answers each request ([None]: the request is accepted). *)
Record EC2 := mkEC2 {
  inventory : list Instance;
  answer : request -> option exn
}.

Definition has_tag (key value : string) (i : Instance) : bool :=
  existsb (fun t => String.eqb (Key t) key && String.eqb (Value t) value)
          (default [] (i_tags i)).

(** Modelled from the spec: the provider's evaluation of one filter
    (boto3, not part of the repository).  Sections 4.1 and 6 give the two
    filters the selector sends: ['instance-id'] is the exact-id filter and
    ['tag:Project'] the tag-equality filter; a filter lists the accepted
    values. *)
Definition satisfies (i : Instance) (f : Filter) : bool :=
  if String.eqb (Name f) "instance-id" then
    existsb (String.eqb (i_id i)) (Values f)
  else if String.eqb (Name f) "tag:Project" then
    existsb (fun value => has_tag "Project" value i) (Values f)
  else false.

(** Modelled from the spec: iterating a collection asks the provider for
    the instances that satisfy every filter, or for the full inventory. *)
Definition fetch (ec2 : EC2) (c : collection) : list Instance :=
  match c with
  | instances_filter Filters =>
      List.filter (fun i => forallb (satisfies i) Filters) (inventory ec2)
  | instances_all => inventory ec2
  end.

(** ** The commands *)

Definition gate_message : string :=
  "Choose a project or use --force option to apply for all instances".

Section Commands.

Variable ec2 : EC2.

(** Sending a request: it is recorded, and raises what the provider
    answers. *)
Definition call (r : request) : run unit :=
  Run [Call r]
      match answer ec2 r with
      | None => Returns tt
      | Some e => Raises e
      end.

Definition snapshot_row (i : Instance) (v : Volume) (s : Snapshot) : string :=
  String.concat ", "
    [s_id s; v_id v; i_id i; s_state s; s_progress s; s_start_time s].

Definition list_snapshots
    (project : option string) (list_all : bool) (instance : option string)
    : run unit :=
  let instances := filter_instances project instance in
  for_each (fetch ec2 instances) (fun i =>
    for_each (i_volumes i) (fun v =>
      for_each (v_snapshots v) (fun s =>
        print (snapshot_row i v s);;
        if String.eqb (s_state s) "completed" && negb list_all
        then mret Break
        else mret Continue);;
      mret Continue);;
    mret Continue).



(** The body of the volume loop of [create_snapshots]. *)
Definition snapshot_volume (v : Volume) : run flow :=
  if is_true (has_pending_snapshot v) then
    print (" Skipping " +:+ v_id v +:+ ", snapshot already in progress");;
    mret Continue
  else
    print ("Creating snapshot of " +:+ v_id v);;
    try_except_ClientError
      (call (create_snapshot v "Created by SnapshotAlyzer 3000");;
       mret Continue)
      (fun e =>
         print (" Could not snapshot " +:+ v_id v +:+ ". " +:+ e);;
         mret Continue).

(** The body of the instance loop of [create_snapshots]. *)
Definition snapshot_instance (i : Instance) : run flow :=
  let last_state := i_state i in
  print ("Stopping " +:+ i_id i);;
  call (stop i);;
  call (wait_until_stopped i);;
  for_each (i_volumes i) snapshot_volume;;
  if String.eqb last_state "running" then
    print ("Starting " +:+ i_id i);;
    call (start i);;
    call (wait_until_running i);;
    mret Continue
  else
    mret Continue.

Definition create_snapshots
    (project : option string) (force : bool) (instance : option string)
    : run unit :=
  if negb (truthy project) && negb force then
    raise (Exception gate_message)
  else
    let instances := filter_instances project instance in
    for_each (fetch ec2 instances) snapshot_instance;;
    print "Job's done!".

(** [{t['Key']: t['Value'] for t in i.tags or []}]: a later entry with
    the same key replaces an earlier one. *)
Definition tags_dict (i : Instance) : gmap string string :=
  foldl (fun d t => <[Key t := Value t]> d) ∅ (default [] (i_tags i)).

Definition instance_row (i : Instance) : string :=
  let tags := tags_dict i in
  String.concat ", "
    [i_id i; i_instance_type i; i_zone i; i_state i; i_public_dns_name i;
     default "<no project>" (tags !! "Project")].

Definition list_instances (project instance : option string) : run unit :=
  let instances := filter_instances project instance in
  for_each (fetch ec2 instances) (fun i =>
    print (instance_row i);;
    mret Continue).

Definition stop_instances
    (project : option string) (force : bool) (instance : option string)
    : run unit :=
  if negb (truthy project) && negb force then
    raise (Exception gate_message)
  else
    let instances := filter_instances project instance in
    for_each (fetch ec2 instances) (fun i =>
      print ("Stopping " +:+ i_id i +:+ "..");;
      try_except_ClientError
        (call (stop i);; mret Continue)
        (fun e =>
           print (" Could not stop " +:+ i_id i +:+ ". " +:+ e);;
           mret Continue)).

Definition start_instances
    (project : option string) (force : bool) (instance : option string)
    : run unit :=
  if negb (truthy project) && negb force then
    raise (Exception gate_message)
  else
    let instances := filter_instances project instance in
    for_each (fetch ec2 instances) (fun i =>
      print ("Starting " +:+ i_id i +:+ "..");;
      try_except_ClientError
        (call (start i);; mret Continue)
        (fun e =>
           print (" Could not start " +:+ i_id i +:+ ". " +:+ e);;
           mret Continue)).

Definition reboot_instances
    (project : option string) (force : bool) (instance : option string)
    : run unit :=
  if negb (truthy project) && negb force then
    raise (Exception gate_message)
  else
    let instances := filter_instances project instance in
    for_each (fetch ec2 instances) (fun i =>
      print ("Rebooting " +:+ i_id i +:+ "..");;
      try_except_ClientError
        (call (reboot i);; mret Continue)
        (fun e =>
           print (" Could not reboot " +:+ i_id i +:+ ". " +:+ e);;
           mret Continue)).

End Commands.

(** ** Definitions the properties are stated with *)

(** The mutating subcommands of [instances]. *)
Inductive subcommand := cmd_snapshot | cmd_stop | cmd_start | cmd_reboot.

Definition mutating_command (ec2 : EC2) (c : subcommand)
    : option string -> bool -> option string -> run unit :=
  match c with
  | cmd_snapshot => create_snapshots ec2
  | cmd_stop => stop_instances ec2
  | cmd_start => start_instances ec2
  | cmd_reboot => reboot_instances ec2
  end.

(** The gate's error, raised with nothing requested and nothing printed. *)
Definition configuration_error : run unit :=
  Run [] (Raises (Exception gate_message)).

(** The spec's words for the default mode: enumerate in listing order and
    stop once a 'completed' snapshot has been printed. *)
Fixpoint up_to_first_completed (l : list Snapshot) : list Snapshot :=
  match l with
  | [] => []
  | s :: older =>
      if String.eqb (s_state s) "completed" then [s]
      else s :: up_to_first_completed older
  end.

(** The snapshots of a volume the listing is to show in each mode. *)
Definition snapshots_shown (list_all : bool) (v : Volume) : list Snapshot :=
  if list_all then v_snapshots v else up_to_first_completed (v_snapshots v).

(** The three stages of the pipeline of one instance. *)
Definition stopping (i : Instance) : list event :=
  [Print ("Stopping " +:+ i_id i); Call (stop i); Call (wait_until_stopped i)].

Definition starting (i : Instance) : list event :=
  [Print ("Starting " +:+ i_id i); Call (start i); Call (wait_until_running i)].

Definition restart (i : Instance) : list event :=
  if String.eqb (i_state i) "running" then starting i else [].

(** The requests of a trace, in order. *)
Definition calls (t : list event) : list request :=
  omap (fun e => match e with Call r => Some r | Print _ => None end) t.

(** The provider that accepts every snapshot request [ec2] refuses with a
    client error, and answers everything else as [ec2] does. *)
Definition accepting_snapshots (ec2 : EC2) : EC2 :=
  mkEC2 (inventory ec2)
        (fun r => match r, answer ec2 r with
                  | create_snapshot _ _, Some (ClientError _) => None
                  | _, a => a
                  end).

(** Two computations that send the same requests in the same order and end
    in the same way. *)
Definition same_requests {A : Type} (m m' : run A) : Prop :=
  calls (log m) = calls (log m') /\ res m = res m'.

(** The provider refuses nothing but snapshot requests, and those with a
    client error. *)
Definition only_snapshot_failures (ec2 : EC2) : Prop :=
  forall r e, answer ec2 r = Some e ->
    exists v Description msg,
      r = create_snapshot v Description /\ e = ClientError msg.

(** ** A small account to run the commands on *)

Definition s1 := mkSnapshot "s1" "completed" "100%" "t=3".
Definition s2 := mkSnapshot "s2" "pending" "40%" "t=2".
Definition s3 := mkSnapshot "s3" "completed" "100%" "t=1".

Definition v_1 := mkVolume "v-1" "in-use" 8 false [].
Definition v_2 := mkVolume "v-2" "in-use" 16 true [s2].
Definition v_3 := mkVolume "v-3" "in-use" 8 false [s1; s2; s3].

Definition i_123 :=
  mkInstance "i-123" "t2.micro" "us-east-1a" "running" "ec2-1.example.com"
             (Some [mkTag "Project" "demo"]) [v_1; v_2].
Definition i_456 :=
  mkInstance "i-456" "t2.micro" "us-east-1b" "stopped" ""
             None [v_3].

(** A provider that accepts every request. *)
Definition calm : request -> option exn := fun _ => None.

Definition account := mkEC2 [i_123; i_456] calm.


(** A provider that refuses, with a client error, the requests [refused]
    picks out, and accepts the others. *)
Definition refusing (refused : request -> bool) (msg : string)
    : request -> option exn :=
  fun r => if refused r then Some (ClientError msg) else None.

Definition is_snapshot_of (vid : string) (r : request) : bool :=
  match r with
  | create_snapshot v _ => String.eqb (v_id v) vid
  | _ => false
  end.

Definition is_stop_of (iid : string) (r : request) : bool :=
  match r with
  | stop i => String.eqb (i_id i) iid
  | _ => false
  end.

Definition is_start_of (iid : string) (r : request) : bool :=
  match r with
  | start i => String.eqb (i_id i) iid
  | _ => false
  end.

Definition v_4 := mkVolume "v-4" "in-use" 32 false [s3].

Definition i_789 :=
  mkInstance "i-789" "t2.small" "us-east-1a" "running" "ec2-7.example.com"
             (Some [mkTag "Project" "demo"]) [v_1; v_4].

(** An account in which the snapshot of v-1 is refused. *)
Definition throttled :=
  mkEC2 [i_789; i_456] (refusing (is_snapshot_of "v-1") "RequestLimitExceeded").

(** An account in which stopping i-123 is refused. *)
Definition stop_refused :=
  mkEC2 [i_123; i_456] (refusing (is_stop_of "i-123") "IncorrectInstanceState").

(** An account in which starting i-123 is refused. *)
Definition start_refused :=
  mkEC2 [i_123; i_456] (refusing (is_start_of "i-123") "InsufficientInstanceCapacity").

(** ** Definitions the further properties are stated with *)

(** The volumes of an instance the guard lets through. *)
Definition volumes_to_snapshot (i : Instance) : list Volume :=
  List.filter (fun v => negb (is_true (has_pending_snapshot v))) (i_volumes i).

(** The requests a snapshot run is to send for one instance, in order. *)
Definition requests_for (i : Instance) : list request :=
  [stop i; wait_until_stopped i]
  ++ ((fun v => create_snapshot v "Created by SnapshotAlyzer 3000")
        <$> volumes_to_snapshot i)
  ++ (if String.eqb (i_state i) "running"
      then [start i; wait_until_running i]
      else []).

(** The tags of an instance that carry a given key, in order. *)
Definition tags_with_key (key : string) (i : Instance) : list Tag :=
  List.filter (fun t => String.eqb (Key t) key) (default [] (i_tags i)).


(** What a request of a mutating subcommand may be, for a selected
    instance [i]: the one request of [stop], [start] and [reboot]; for
    [snapshot] the stop, the start, their waits, or the snapshot of one of
    the volumes of [i]. *)
Definition request_of (c : subcommand) (i : Instance) (r : request) : Prop :=
  match c with
  | cmd_stop => r = stop i
  | cmd_start => r = start i
  | cmd_reboot => r = reboot i
  | cmd_snapshot =>
      r = stop i \/ r = wait_until_stopped i \/
      r = start i \/ r = wait_until_running i \/
      exists v, v ∈ i_volumes i /\
                r = create_snapshot v "Created by SnapshotAlyzer 3000"
  end.

(** * Properties *)

(** ** Computations and loops *)

Lemma bind_returns {A B : Type} (m : run A) (k : A -> run B) (a : A) :
  res m = Returns a ->
  m ≫= k = Run (log m ++ log (k a)) (res (k a)).
Proof. intros H. unfold mbind, run_bind. by rewrite H. Qed.

Lemma bind_raises {A B : Type} (m : run A) (k : A -> run B) (e : exn) :
  res m = Raises e ->
  m ≫= k = Run (log m) (Raises e).
Proof. intros H. unfold mbind, run_bind. by rewrite H. Qed.

(** Whatever a sequence logs was logged by its first part, or by its second
    part after the first returned. *)
Lemma elem_of_log_bind {A B : Type} (m : run A) (k : A -> run B) (e : event) :
  e ∈ log (m ≫= k) ->
  e ∈ log m \/ exists a, res m = Returns a /\ e ∈ log (k a).
Proof.
  unfold mbind, run_bind. destruct (res m) as [a|x] eqn:E; simpl.
  - rewrite elem_of_app. intros [H|H]; [by left | right; eauto].
  - by left.
Qed.

Lemma for_each_cons {A : Type} (x : A) (xs : list A) (body : A -> run flow) :
  for_each (x :: xs) body =
  body x ≫= λ c, match c with
                 | Continue => for_each xs body
                 | Break => mret tt
                 end.
Proof. reflexivity. Qed.

(** Every event of a loop comes from the body run on one of the elements. *)
Lemma elem_of_log_for_each {A : Type} (xs : list A) (body : A -> run flow) e :
  e ∈ log (for_each xs body) ->
  exists x, x ∈ xs /\ e ∈ log (body x).
Proof.
  induction xs as [|x xs IH]; simpl.
  - by intros ?%elem_of_nil.
  - intros [H|(c & Hc & H)]%elem_of_log_bind.
    + exists x. split; [left | done].
    + destruct c.
      * destruct (IH H) as (y & Hy & He). exists y. split; [by right | done].
      * by apply elem_of_nil in H.
Qed.

(** A loop whose body always reaches its end runs the body on every
    element, in order, and returns. *)
Lemma for_each_all_continue {A : Type} (xs : list A) (body : A -> run flow) :
  (forall x, x ∈ xs -> res (body x) = Returns Continue) ->
  for_each xs body = Run (xs ≫= λ x, log (body x)) (Returns tt).
Proof.
  induction xs as [|x xs IH]; intros H; [done|].
  rewrite for_each_cons.
  rewrite (bind_returns _ _ Continue) by (apply H; left).
  rewrite IH by (intros y Hy; apply H; by right).
  done.
Qed.

(** A loop without [break] that returns has run its body to the end on
    every element. *)
Lemma for_each_returns_inv {A : Type} (xs : list A) (body : A -> run flow) u :
  (forall x, res (body x) <> Returns Break) ->
  res (for_each xs body) = Returns u ->
  forall x, x ∈ xs -> res (body x) = Returns Continue.
Proof.
  intros Hnb. induction xs as [|x xs IH]; intros Hr y Hy.
  - by apply elem_of_nil in Hy.
  - rewrite for_each_cons in Hr. unfold mbind, run_bind in Hr.
    destruct (res (body x)) as [[]|e] eqn:E; simpl in Hr; try done.
    + apply elem_of_cons in Hy as [->|Hy]; [done | by apply IH].
    + by destruct (Hnb x).
Qed.

(** ** Snapshot Guard *)

(** C3: for every volume, the guard is false when the volume has no
    snapshot; it is true exactly when the first snapshot of the listing (the
    most recent one) is in state 'pending'; and it is false when that first
    snapshot is 'completed' or 'error', whatever the older snapshots are.
    True and false are the truth value of the result, which is what
    [if has_pending_snapshot(v):] tests. *)
Theorem has_pending_snapshot_most_recent (v : Volume) :
  (v_snapshots v = [] -> is_true (has_pending_snapshot v) = false) /\
  (is_true (has_pending_snapshot v) = true <->
     exists s older, v_snapshots v = s :: older /\ s_state s = "pending") /\
  (forall s older, v_snapshots v = s :: older ->
     s_state s = "completed" \/ s_state s = "error" ->
     is_true (has_pending_snapshot v) = false).
Proof.
  unfold has_pending_snapshot. destruct (v_snapshots v) as [|s0 rest]; simpl.
  - split; [done|]. split; [|done].
    split; [done | by intros (s & older & ? & _)].
  - split; [done|]. split.
    + rewrite String.eqb_eq. split.
      * intros H. by exists s0, rest.
      * by intros (s & older & [= -> _] & H).
    + intros s older [= -> _] [H|H]; by rewrite H.
Qed.

Lemma has_pending_snapshot_most_recent_witness :
  is_true (has_pending_snapshot v_1) = false /\
  is_true (has_pending_snapshot v_2) = true /\
  is_true (has_pending_snapshot v_3) = false.
Proof.
  split; [|split].
  - by apply (has_pending_snapshot_most_recent v_1).
  - apply (has_pending_snapshot_most_recent v_2). by exists s2, [].
  - apply (proj2 (proj2 (has_pending_snapshot_most_recent v_3)) s1 [s2; s3]);
      [done | by left].
Defined.

(** C9: for a volume whose listing is empty the guard returns that empty
    list, which is not the boolean False; only for a listing that is not
    empty is the result a boolean.  So the result is not always a boolean. *)
Theorem has_pending_snapshot_returns_the_empty_list (v : Volume) :
  (v_snapshots v = [] ->
     has_pending_snapshot v = PyList [] /\
     has_pending_snapshot v <> PyBool false) /\
  (v_snapshots v <> [] -> exists b, has_pending_snapshot v = PyBool b).
Proof.
  unfold has_pending_snapshot. destruct (v_snapshots v) as [|s0 rest]; simpl.
  - split; [done|]. by intros [].
  - split; [done|]. intros _. eauto.
Qed.

Lemma has_pending_snapshot_returns_the_empty_list_witness :
  has_pending_snapshot v_1 = PyList [] /\
  (exists b, has_pending_snapshot v_2 = PyBool b).
Proof.
  split.
  - by apply (proj1 (has_pending_snapshot_returns_the_empty_list v_1)).
  - by apply (proj2 (has_pending_snapshot_returns_the_empty_list v_2)).
Defined.

(** ** Selector *)

Lemma given_Some (x : option string) (s : string) :
  given x = Some s <-> x = Some s /\ s <> "".
Proof.
  destruct x as [t|]; simpl.
  - destruct (String.eqb_spec t "") as [->|Hne].
    + split; [done | by intros [[= ->] ?]].
    + split; [by intros [= ->] | by intros [[= ->] _]].
  - split; [done | by intros [? _]].
Qed.

Lemma given_None (x : option string) :
  given x = None <-> x = None \/ x = Some "".
Proof.
  destruct x as [t|]; simpl.
  - destruct (String.eqb_spec t "") as [->|Hne].
    + split; [by right | done].
    + split; [done | intros [?|[= ?]]; done].
  - split; [by left | done].
Qed.

Lemma truthy_given (x : option string) :
  truthy x = false <-> given x = None.
Proof. unfold truthy. by destruct (given x). Qed.

(** In an inventory whose ids are all different, at most one instance
    carries a given id. *)
Lemma filter_by_id_at_most_one (iid : string) (l : list Instance) :
  NoDup (i_id <$> l) ->
  length (List.filter (fun i => String.eqb (i_id i) iid) l) <= 1.
Proof.
  induction l as [|i l IH]; simpl; [lia|].
  intros [Hi Hl]%NoDup_cons. specialize (IH Hl).
  destruct (String.eqb_spec (i_id i) iid) as [Heq|]; [|done].
  simpl. enough (List.filter (fun j => String.eqb (i_id j) iid) l = []) as ->
    by (simpl; lia).
  clear IH Hl. induction l as [|j l IH]; simpl; [done|].
  rewrite fmap_cons in Hi. apply not_elem_of_cons in Hi as [Hne Hi].
  destruct (String.eqb_spec (i_id j) iid); [congruence | by apply IH].
Qed.

Lemma fetch_instance_id (ec2 : EC2) (iid : string) :
  fetch ec2 (instances_filter [mkFilter "instance-id" [iid]]) =
  List.filter (fun i => String.eqb (i_id i) iid) (inventory ec2).
Proof.
  simpl. apply List.filter_ext. intros i.
  rewrite andb_true_r. unfold satisfies. simpl. by rewrite orb_false_r.
Qed.

(** C7, as stated, fails for an id that is given but empty
    ([--instance ""]): [if instance:] is false for it, so the selector falls
    through to the project filter or to the full inventory, here of two
    instances. *)
Lemma empty_instance_id_is_not_an_id_filter :
  filter_instances (Some "demo") (Some "") =
    instances_filter [mkFilter "tag:Project" ["demo"]] /\
  filter_instances None (Some "") = instances_all /\
  fetch account (filter_instances None (Some "")) = [i_123; i_456].
Proof. by repeat split. Qed.

(** C7, amended: for every selection criteria whose instanceId is set to a
    string that is not empty, the selector queries with the exact-id filter
    alone, whatever projectTag is; on an inventory whose ids are all
    different the result holds at most one instance, and an instance in it
    has that id.  When instanceId and projectTag are each unset or empty the
    selector queries the unfiltered full inventory. *)
Theorem filter_instances_id_takes_precedence (project instance : option string) :
  (forall iid, instance = Some iid -> iid <> "" ->
     filter_instances project instance =
       instances_filter [mkFilter "instance-id" [iid]] /\
     forall ec2, NoDup (i_id <$> inventory ec2) ->
       length (fetch ec2 (filter_instances project instance)) <= 1 /\
       forall i, i ∈ fetch ec2 (filter_instances project instance) ->
                 i_id i = iid) /\
  (truthy instance = false -> truthy project = false ->
     filter_instances project instance = instances_all /\
     forall ec2, fetch ec2 (filter_instances project instance) = inventory ec2).
Proof.
  split.
  - intros iid Hi Hne.
    assert (given instance = Some iid) as Hg by by apply given_Some.
    assert (filter_instances project instance =
            instances_filter [mkFilter "instance-id" [iid]]) as ->.
    { unfold filter_instances. by rewrite Hg. }
    split; [done|]. intros ec2 Hnd. rewrite fetch_instance_id. split.
    + by apply filter_by_id_at_most_one.
    + intros i [_ Hid%String.eqb_eq]%list_elem_of_In%List.filter_In. done.
  - intros Hi%truthy_given Hp%truthy_given.
    unfold filter_instances. by rewrite Hi, Hp.
Qed.

Lemma filter_instances_id_takes_precedence_witness :
  (filter_instances (Some "demo") (Some "i-456") =
     instances_filter [mkFilter "instance-id" ["i-456"]] /\
   length (fetch account (filter_instances (Some "demo") (Some "i-456"))) <= 1) /\
  fetch account (filter_instances None None) = [i_123; i_456].
Proof.
  split.
  - destruct (proj1 (filter_instances_id_takes_precedence
                       (Some "demo") (Some "i-456")) "i-456")
      as [Hq Hfetch]; [done | done |].
    split; [exact Hq|].
    apply (Hfetch account). by apply (bool_decide_unpack _).
  - by apply (proj2 (filter_instances_id_takes_precedence None None)).
Defined.

(** ** Reporters *)

Lemma for_each_ext {A : Type} (xs : list A) (f g : A -> run flow) :
  (forall x, x ∈ xs -> f x = g x) ->
  for_each xs f = for_each xs g.
Proof.
  induction xs as [|x xs IH]; intros H; [done|].
  rewrite !for_each_cons, (H x) by left.
  unfold mbind, run_bind. destruct (res (g x)) as [[]|]; try done.
  rewrite IH; [done|]. intros y Hy. apply H. by right.
Qed.

(** The innermost loop of [list_snapshots], over any listing. *)
Lemma list_snapshots_of_volume (i : Instance) (v : Volume) (list_all : bool)
    (l : list Snapshot) :
  for_each l (fun s =>
    print (snapshot_row i v s);;
    if String.eqb (s_state s) "completed" && negb list_all
    then mret Break
    else mret Continue) =
  Run ((fun s => Print (snapshot_row i v s)) <$>
         (if list_all then l else up_to_first_completed l))
      (Returns tt).
Proof.
  induction l as [|s l IH]; [by destruct list_all|].
  rewrite for_each_cons, IH. clear IH.
  destruct list_all.
  - rewrite andb_false_r. by rewrite (bind_returns _ _ Continue).
  - rewrite andb_true_r. cbn [up_to_first_completed].
    destruct (String.eqb (s_state s) "completed").
    + by rewrite (bind_returns _ _ Break).
    + by rewrite (bind_returns _ _ Continue).
Qed.

(** C8: in the snapshot listing, the default mode prints, for every volume,
    the snapshots in listing order (most recent first) up to and including
    the first 'completed' one, and the 'all' mode prints every snapshot of
    the volume in listing order.  For the volume with snapshots
    [s1 (completed); s2 (pending); s3 (completed)] the default mode prints
    only s1 and the 'all' mode prints s1, s2, s3 in that order. *)
Theorem list_snapshots_stops_at_first_completed
    (ec2 : EC2) (project : option string) (list_all : bool)
    (instance : option string) :
  list_snapshots ec2 project list_all instance =
    Run (i ← fetch ec2 (filter_instances project instance);
         v ← i_volumes i;
         s ← snapshots_shown list_all v;
         [Print (snapshot_row i v s)])
        (Returns tt) /\
  snapshots_shown false v_3 = [s1] /\
  snapshots_shown true v_3 = [s1; s2; s3] /\
  log (list_snapshots (mkEC2 [i_456] calm) None false None) =
    [Print "s1, v-3, i-456, completed, 100%, t=3"] /\
  log (list_snapshots (mkEC2 [i_456] calm) None true None) =
    [Print "s1, v-3, i-456, completed, 100%, t=3";
     Print "s2, v-3, i-456, pending, 40%, t=2";
     Print "s3, v-3, i-456, completed, 100%, t=1"].
Proof.
  split; [|by repeat split].
  unfold list_snapshots.
  rewrite (for_each_ext _ _ (fun i =>
    Run (v ← i_volumes i; s ← snapshots_shown list_all v;
         [Print (snapshot_row i v s)])
        (Returns Continue))).
  { by rewrite for_each_all_continue. }
  intros i _.
  rewrite (for_each_ext _ _ (fun v =>
    Run (s ← snapshots_shown list_all v; [Print (snapshot_row i v s)])
        (Returns Continue))).
  { rewrite for_each_all_continue by done.
    rewrite (bind_returns _ _ tt) by done. simpl. by rewrite app_nil_r. }
  intros v _.
  rewrite list_snapshots_of_volume.
  rewrite (bind_returns _ _ tt) by done. simpl. rewrite app_nil_r.
  reflexivity.
Qed.

(** The default mode shows the listing up to its first 'completed'
    snapshot, and all of it when none is completed. *)
Lemma up_to_first_completed_split (l : list Snapshot) :
  (exists (before : list Snapshot) c after,
     l = before ++ c :: after /\
     Forall (fun s => s_state s <> "completed") before /\
     s_state c = "completed" /\
     up_to_first_completed l = before ++ [c]) \/
  (Forall (fun s => s_state s <> "completed") l /\
   up_to_first_completed l = l).
Proof.
  induction l as [|s l IH]; [by right|]. simpl.
  destruct (String.eqb_spec (s_state s) "completed") as [Hs|Hs].
  - left. by exists [], s, l.
  - destruct IH as [(before & c & after & -> & Hb & Hc & ->)|[Hl ->]].
    + left. exists (s :: before), c, after. repeat split; [|done].
      by constructor.
    + right. split; [by constructor | done].
Qed.

(** The dict comprehension holds no key that no tag carries. *)
Lemma tags_dict_lookup_None (i : Instance) (key : string) :
  (forall t, t ∈ default [] (i_tags i) -> Key t <> key) ->
  tags_dict i !! key = None.
Proof.
  unfold tags_dict. generalize (default [] (i_tags i)). intros l.
  assert (forall d : gmap string string, d !! key = None ->
          (forall t, t ∈ l -> Key t <> key) ->
          foldl (fun d t => <[Key t := Value t]> d) d l !! key = None) as H.
  { induction l as [|t l IH]; intros d Hd Hl; [done|]. simpl.
    apply IH.
    - rewrite lookup_insert_ne; [done|]. apply Hl. left.
    - intros t' Ht'. apply Hl. by right. }
  apply H, lookup_empty.
Qed.

(** The dict comprehension maps a key to the value of the last tag that
    carries it. *)
Lemma tags_dict_lookup_last (i : Instance) (l1 l2 : list Tag) (t : Tag) :
  default [] (i_tags i) = l1 ++ t :: l2 ->
  (forall t', t' ∈ l2 -> Key t' <> Key t) ->
  tags_dict i !! Key t = Some (Value t).
Proof.
  unfold tags_dict. intros -> Hl2. rewrite foldl_app. simpl.
  generalize (foldl (fun (d : gmap string string) t0 =>
                      <[Key t0:=Value t0]> d) ∅ l1). intros d.
  assert (forall d : gmap string string, d !! Key t = Some (Value t) ->
          foldl (fun d t0 => <[Key t0:=Value t0]> d) d l2 !! Key t
          = Some (Value t)) as H.
  { induction l2 as [|t' l2 IH]; intros d' Hd'; [done|]. simpl.
    apply IH.
    - intros t'' Ht''. apply Hl2. by right.
    - rewrite lookup_insert_ne; [done|]. apply Hl2. left. }
  apply H, lookup_insert_eq.
Qed.

(** C10: the instance listing does not fail on an instance whose [tags] is
    [None]: the command returns and prints one row for every selected
    instance, in order; and for an instance that has no tags, or none with
    the key 'Project', the project column of its row is '<no project>'. *)
Theorem list_instances_defaults_project
    (ec2 : EC2) (project instance : option string) :
  list_instances ec2 project instance =
    Run ((fun i => Print (instance_row i)) <$>
           fetch ec2 (filter_instances project instance))
        (Returns tt) /\
  forall i,
    i_tags i = None \/
    (forall t, t ∈ default [] (i_tags i) -> Key t <> "Project") ->
    instance_row i =
      String.concat ", "
        [i_id i; i_instance_type i; i_zone i; i_state i; i_public_dns_name i;
         "<no project>"].
Proof.
  split.
  - unfold list_instances. by rewrite for_each_all_continue.
  - intros i Hi. unfold instance_row.
    rewrite tags_dict_lookup_None; [done|].
    destruct Hi as [Hi|Hi]; [|done].
    rewrite Hi. by intros t ?%elem_of_nil.
Qed.

Lemma list_instances_defaults_project_witness :
  instance_row i_456 = "i-456, t2.micro, us-east-1b, stopped, , <no project>".
Proof.
  apply (proj2 (list_instances_defaults_project account None None) i_456).
  by left.
Defined.

(** ** The configuration gate *)

(** A loop whose body prints or requests something cannot end in an
    exception without leaving a trace. *)
Lemma for_each_raises_leaves_trace {A : Type}
    (xs : list A) (body : A -> run flow) (e : exn) :
  (forall x, log (body x) <> []) ->
  for_each xs body <> Run [] (Raises e).
Proof.
  intros Hbody. destruct xs as [|x xs]; [done|].
  rewrite for_each_cons. unfold mbind, run_bind.
  specialize (Hbody x). destruct (res (body x)); simpl.
  - intros [= [H _]%app_eq_nil _]. done.
  - intros [= H _]. done.
Qed.

Lemma then_print_leaves_trace (m : run unit) (line : string) (e : exn) :
  m <> Run [] (Raises e) ->
  (m;; print line) <> Run [] (Raises e).
Proof.
  destruct m as [l [[]|e']]; unfold mbind, run_bind; simpl; [|done].
  by intros _ [=].
Qed.

(** Past the gate no mutating subcommand ends like the gate does: it
    returns, or it has printed something before it raises. *)
Lemma past_the_gate (ec2 : EC2) (c : subcommand)
    (project : option string) (force : bool) (instance : option string) :
  negb (truthy project) && negb force = false ->
  mutating_command ec2 c project force instance <> configuration_error.
Proof.
  intros Hgate. unfold configuration_error.
  destruct c; simpl;
    unfold create_snapshots, stop_instances, start_instances,
      reboot_instances;
    rewrite Hgate.
  - by apply then_print_leaves_trace, for_each_raises_leaves_trace.
  - by apply for_each_raises_leaves_trace.
  - by apply for_each_raises_leaves_trace.
  - by apply for_each_raises_leaves_trace.
Qed.

(** C1, as stated, fails: with [--instance] alone ([project] unset and
    [force] false) every mutating subcommand raises the configuration
    error, although an instance id is supplied. *)
Lemma instance_alone_does_not_pass_the_gate :
  create_snapshots account None false (Some "i-123") = configuration_error /\
  stop_instances account None false (Some "i-123") = configuration_error /\
  start_instances account None false (Some "i-123") = configuration_error /\
  reboot_instances account None false (Some "i-123") = configuration_error.
Proof. by repeat split. Qed.

(** C1, amended: every mutating subcommand (instances snapshot, stop, start,
    reboot) raises the configuration error if and only if project is unset
    or empty and force is false, whatever instanceId is: [--project] or
    [--force] passes the gate, [--instance] does not.  The error is raised
    with an empty trace: before any request to the provider and before any
    output. *)
Theorem gate_needs_project_or_force
    (ec2 : EC2) (c : subcommand)
    (project : option string) (force : bool) (instance : option string) :
  mutating_command ec2 c project force instance
    = Run [] (Raises (Exception gate_message))
  <-> truthy project = false /\ force = false.
Proof.
  split.
  - intros H.
    destruct (negb (truthy project) && negb force) eqn:Hgate.
    + apply andb_true_iff in Hgate as [Hp Hf].
      by apply negb_true_iff in Hp, Hf.
    + by destruct (past_the_gate ec2 c project force instance).
  - intros [Hp ->].
    destruct c; simpl;
      unfold create_snapshots, stop_instances, start_instances,
        reboot_instances; by rewrite Hp.
Qed.

(** ** Lifecycle Orchestrator *)

(** What the volume loop does on one volume, case by case. *)
Lemma snapshot_volume_cases (ec2 : EC2) (v : Volume) :
  snapshot_volume ec2 v =
  if is_true (has_pending_snapshot v) then
    Run [Print (" Skipping " +:+ v_id v +:+ ", snapshot already in progress")]
        (Returns Continue)
  else
    match answer ec2 (create_snapshot v "Created by SnapshotAlyzer 3000") with
    | None =>
        Run [Print ("Creating snapshot of " +:+ v_id v);
             Call (create_snapshot v "Created by SnapshotAlyzer 3000")]
            (Returns Continue)
    | Some (ClientError msg) =>
        Run [Print ("Creating snapshot of " +:+ v_id v);
             Call (create_snapshot v "Created by SnapshotAlyzer 3000");
             Print (" Could not snapshot " +:+ v_id v +:+ ". " +:+ msg)]
            (Returns Continue)
    | Some e =>
        Run [Print ("Creating snapshot of " +:+ v_id v);
             Call (create_snapshot v "Created by SnapshotAlyzer 3000")]
            (Raises e)
    end.
Proof.
  unfold snapshot_volume. destruct (is_true (has_pending_snapshot v)); [done|].
  unfold mbind, run_bind, try_except_ClientError, call. simpl.
  by destruct (answer ec2 _) as [[]|].
Qed.

Lemma snapshot_volume_no_break (ec2 : EC2) (v : Volume) :
  res (snapshot_volume ec2 v) <> Returns Break.
Proof.
  rewrite snapshot_volume_cases.
  destruct (is_true (has_pending_snapshot v)); [done|].
  by destruct (answer ec2 _) as [[]|].
Qed.

(** The only request the volume loop sends is [create_snapshot], on a
    volume the guard let through. *)
Lemma volume_loop_requests (ec2 : EC2) (vs : list Volume) (r : request) :
  Call r ∈ log (for_each vs (snapshot_volume ec2)) ->
  exists v, v ∈ vs /\
            r = create_snapshot v "Created by SnapshotAlyzer 3000" /\
            is_true (has_pending_snapshot v) = false.
Proof.
  intros (v & Hv & Hr)%elem_of_log_for_each. exists v. split; [done|].
  rewrite snapshot_volume_cases in Hr.
  destruct (is_true (has_pending_snapshot v)).
  - by apply list_elem_of_singleton in Hr.
  - split; [|done].
    destruct (answer ec2 _) as [[]|]; simpl in Hr;
      repeat (apply elem_of_cons in Hr as [Hr|Hr]; [by simplify_eq|]);
      by apply elem_of_nil in Hr.
Qed.

(** Whatever happens, the trace of one instance is an initial part of:
    stop and wait, the volume loop, then the restart decided by the state
    the instance had when it was listed. *)
Lemma snapshot_instance_prefix (ec2 : EC2) (i : Instance) :
  log (snapshot_instance ec2 i) `prefix_of`
    stopping i ++ log (for_each (i_volumes i) (snapshot_volume ec2))
               ++ restart i.
Proof.
  unfold snapshot_instance, stopping, restart, starting, call.
  unfold mbind, run_bind. simpl.
  destruct (answer ec2 (stop i)); simpl.
  { by eexists. }
  destruct (answer ec2 (wait_until_stopped i)); simpl.
  { by eexists. }
  do 3 apply prefix_cons.
  destruct (res (for_each (i_volumes i) (snapshot_volume ec2))); simpl.
  2:{ by apply prefix_app_r. }
  apply prefix_app.
  destruct (String.eqb (i_state i) "running"); simpl; [|done].
  destruct (answer ec2 (start i)); simpl; [by eexists|].
  destruct (answer ec2 (wait_until_running i)); simpl; by eexists.
Qed.

(** When the pipeline of one instance returns, it has gone through all
    three stages and the instance loop goes on. *)
Lemma snapshot_instance_returns (ec2 : EC2) (i : Instance) (c : flow) :
  res (snapshot_instance ec2 i) = Returns c ->
  c = Continue /\
  log (snapshot_instance ec2 i) =
    stopping i ++ log (for_each (i_volumes i) (snapshot_volume ec2))
               ++ restart i.
Proof.
  unfold snapshot_instance, stopping, restart, starting, call.
  unfold mbind, run_bind. simpl.
  destruct (answer ec2 (stop i)); simpl; [done|].
  destruct (answer ec2 (wait_until_stopped i)); simpl; [done|].
  destruct (res (for_each (i_volumes i) (snapshot_volume ec2))); simpl;
    [|done].
  destruct (String.eqb (i_state i) "running"); simpl.
  - destruct (answer ec2 (start i)); simpl; [done|].
    destruct (answer ec2 (wait_until_running i)); simpl; [done|].
    by intros [= <-].
  - by intros [= <-].
Qed.

Lemma snapshot_instance_no_break (ec2 : EC2) (i : Instance) :
  res (snapshot_instance ec2 i) <> Returns Break.
Proof. by intros [? _]%snapshot_instance_returns. Qed.

(** The requests of a snapshot run, classified: each is sent on behalf of a
    selected instance, and is its stop, the wait for it, the snapshot of one
    of its volumes that the guard let through, or, for an instance that was
    listed as 'running', its start and the wait for it. *)
Lemma create_snapshots_requests
    (ec2 : EC2) (project : option string) (force : bool)
    (instance : option string) (r : request) :
  Call r ∈ log (create_snapshots ec2 project force instance) ->
  exists i, i ∈ fetch ec2 (filter_instances project instance) /\
    (r = stop i \/ r = wait_until_stopped i \/
     (exists v, v ∈ i_volumes i /\
        r = create_snapshot v "Created by SnapshotAlyzer 3000" /\
        is_true (has_pending_snapshot v) = false) \/
     (i_state i = "running" /\ (r = start i \/ r = wait_until_running i))).
Proof.
  unfold create_snapshots.
  destruct (negb (truthy project) && negb force); [by intros ?%elem_of_nil|].
  intros [Hr|(_ & _ & Hr)]%elem_of_log_bind;
    [|by apply list_elem_of_singleton in Hr].
  apply elem_of_log_for_each in Hr as (i & Hi & Hr).
  exists i. split; [done|].
  destruct (snapshot_instance_prefix ec2 i) as [k Hk].
  assert (Call r ∈ stopping i
                   ++ log (for_each (i_volumes i) (snapshot_volume ec2))
                   ++ restart i) as Hin.
  { rewrite Hk. apply elem_of_app. by left. }
  apply elem_of_app in Hin as [Hin|Hin].
  { unfold stopping in Hin.
    repeat (apply elem_of_cons in Hin as [Hin|Hin]; [naive_solver|]).
    by apply elem_of_nil in Hin. }
  apply elem_of_app in Hin as [Hin|Hin].
  { right. right. left. by apply (volume_loop_requests ec2). }
  unfold restart in Hin.
  destruct (String.eqb_spec (i_state i) "running") as [Hs|_];
    [|by apply elem_of_nil in Hin].
  unfold starting in Hin.
  repeat (apply elem_of_cons in Hin as [Hin|Hin]; [naive_solver|]).
  by apply elem_of_nil in Hin.
Qed.

(** A snapshot run that returns has passed the gate and taken every
    selected instance, in order, through all three stages. *)
Lemma create_snapshots_returns
    (ec2 : EC2) (project : option string) (force : bool)
    (instance : option string) (u : unit) :
  res (create_snapshots ec2 project force instance) = Returns u ->
  log (create_snapshots ec2 project force instance) =
    (i ← fetch ec2 (filter_instances project instance);
     stopping i ++ log (for_each (i_volumes i) (snapshot_volume ec2))
                ++ restart i)
    ++ [Print "Job's done!"].
Proof.
  unfold create_snapshots.
  destruct (negb (truthy project) && negb force); [done|].
  destruct (res (for_each (fetch ec2 (filter_instances project instance))
                          (snapshot_instance ec2))) as [[]|e] eqn:Hres.
  2:{ by rewrite (bind_raises _ _ e Hres). }
  rewrite (bind_returns _ _ tt Hres). intros _. cbn [log]. f_equal.
  pose proof (for_each_returns_inv _ _ _
                (snapshot_instance_no_break ec2) Hres) as Hall.
  rewrite for_each_all_continue by done. cbn [log]. clear Hres.
  induction (fetch ec2 (filter_instances project instance)) as [|i l IH];
    [done|].
  rewrite !bind_cons. f_equal.
  - destruct (snapshot_instance_returns ec2 i Continue) as [_ ->]; [|done].
    apply Hall. left.
  - apply IH. intros j Hj. apply Hall. by right.
Qed.

(** C4: in the snapshot orchestration, a volume for which the guard reports
    a pending snapshot is skipped: the loop prints that it skips it, sends
    nothing and moves on to the next volume; and no [create_snapshot] request
    for that volume is anywhere in the trace of the run. *)
Theorem pending_volume_is_never_snapshotted
    (ec2 : EC2) (project : option string) (force : bool)
    (instance : option string) (v : Volume) :
  is_true (has_pending_snapshot v) = true ->
  snapshot_volume ec2 v =
    Run [Print (" Skipping " +:+ v_id v +:+ ", snapshot already in progress")]
        (Returns Continue) /\
  forall Description,
    Call (create_snapshot v Description)
      ∉ log (create_snapshots ec2 project force instance).
Proof.
  intros Hpending. split.
  - by rewrite snapshot_volume_cases, Hpending.
  - intros Description
      (i & _ & [?|[?|[(v' & _ & [= -> _] & Hv')|[_ [?|?]]]]])%create_snapshots_requests;
      try done.
    by rewrite Hpending in Hv'.
Qed.

Lemma pending_volume_is_never_snapshotted_witness :
  snapshot_volume account v_2 =
    Run [Print " Skipping v-2, snapshot already in progress"]
        (Returns Continue) /\
  Call (create_snapshot v_2 "Created by SnapshotAlyzer 3000")
    ∉ log (create_snapshots account None true None).
Proof.
  destruct (pending_volume_is_never_snapshotted account None true None v_2)
    as [Hskip Hnever]; [reflexivity|].
  split; [exact Hskip | apply Hnever].
Defined.

(** C5: for every instance of the snapshot orchestration, the restart is
    decided by the state the instance had when it was listed, before its
    stop request.  No start request is ever sent for an instance whose
    state was not 'running'.  In a run that returns, a selected instance
    whose state was 'running' has received its start request and the wait
    until it runs.  The trace of one instance is always an initial part of:
    the stop request and its wait, the volume loop, then the start request
    and its wait if and only if the state was 'running'; and it is all of
    that when the pipeline returns. *)
Theorem restart_iff_was_running
    (ec2 : EC2) (project : option string) (force : bool)
    (instance : option string) (i : Instance) :
  (Call (start i) ∈ log (create_snapshots ec2 project force instance) ->
   i_state i = "running") /\
  (res (create_snapshots ec2 project force instance) = Returns tt ->
   i ∈ fetch ec2 (filter_instances project instance) ->
   i_state i = "running" ->
   Call (start i) ∈ log (create_snapshots ec2 project force instance) /\
   Call (wait_until_running i)
     ∈ log (create_snapshots ec2 project force instance)) /\
  log (snapshot_instance ec2 i) `prefix_of`
    [Print ("Stopping " +:+ i_id i); Call (stop i);
     Call (wait_until_stopped i)]
    ++ log (for_each (i_volumes i) (snapshot_volume ec2))
    ++ (if String.eqb (i_state i) "running"
        then [Print ("Starting " +:+ i_id i); Call (start i);
              Call (wait_until_running i)]
        else []) /\
  (forall c, res (snapshot_instance ec2 i) = Returns c ->
   log (snapshot_instance ec2 i) =
    [Print ("Stopping " +:+ i_id i); Call (stop i);
     Call (wait_until_stopped i)]
    ++ log (for_each (i_volumes i) (snapshot_volume ec2))
    ++ (if String.eqb (i_state i) "running"
        then [Print ("Starting " +:+ i_id i); Call (start i);
              Call (wait_until_running i)]
        else [])).
Proof.
  split; [|split; [|split]].
  - intros (j & _ & [?|[?|[(v & _ & ? & _)|[Hj [[= ->]|?]]]]])%create_snapshots_requests;
      done.
  - intros Hret Hi Hrunning.
    rewrite (create_snapshots_returns _ _ _ _ _ Hret).
    assert (forall e, e ∈ starting i ->
              e ∈ (j ← fetch ec2 (filter_instances project instance);
                   stopping j
                   ++ log (for_each (i_volumes j) (snapshot_volume ec2))
                   ++ restart j) ++ [Print "Job's done!"]) as Hin.
    { intros e He. apply elem_of_app. left.
      apply list_elem_of_bind. exists i. split; [|done].
      rewrite !elem_of_app. right. right.
      unfold restart. by rewrite Hrunning. }
    split; apply Hin; unfold starting.
    + right. left.
    + right. right. left.
  - apply snapshot_instance_prefix.
  - intros c Hc. by destruct (snapshot_instance_returns ec2 i c Hc) as [_ ->].
Qed.

Lemma restart_iff_was_running_witness :
  (Call (start i_123) ∈ log (create_snapshots account None true None) /\
   Call (wait_until_running i_123)
     ∈ log (create_snapshots account None true None)) /\
  Call (start i_456) ∉ log (create_snapshots account None true None).
Proof.
  split.
  - apply (restart_iff_was_running account None true None i_123);
      [reflexivity | left | reflexivity].
  - intros H.
    by apply (proj1 (restart_iff_was_running account None true None i_456))
      in H.
Defined.

(** ** Failures of single requests *)

Lemma same_requests_bind {A B : Type} (m m' : run A) (k k' : A -> run B) :
  same_requests m m' ->
  (forall a, same_requests (k a) (k' a)) ->
  same_requests (m ≫= k) (m' ≫= k').
Proof.
  intros [Hcalls Hres] Hk. unfold same_requests, mbind, run_bind.
  rewrite Hres. destruct (res m') as [a|e]; simpl; [|done].
  destruct (Hk a) as [Hcalls' Hres'].
  unfold calls in *. by rewrite !omap_app, Hcalls, Hcalls', Hres'.
Qed.

Lemma same_requests_for_each {A : Type} (xs : list A) (f g : A -> run flow) :
  (forall x, same_requests (f x) (g x)) ->
  same_requests (for_each xs f) (for_each xs g).
Proof.
  intros Hfg. induction xs as [|x xs IH]; [done|].
  rewrite !for_each_cons. apply same_requests_bind; [done|].
  by intros [].
Qed.

Lemma same_requests_snapshot_volume (ec2 : EC2) (v : Volume) :
  same_requests (snapshot_volume ec2 v)
                (snapshot_volume (accepting_snapshots ec2) v).
Proof.
  rewrite !snapshot_volume_cases. simpl.
  destruct (is_true (has_pending_snapshot v)); [done|].
  by destruct (answer ec2 _) as [[]|].
Qed.

Lemma same_requests_snapshot_instance (ec2 : EC2) (i : Instance) :
  same_requests (snapshot_instance ec2 i)
                (snapshot_instance (accepting_snapshots ec2) i).
Proof.
  unfold snapshot_instance.
  repeat (apply same_requests_bind; [done | intros _]).
  apply same_requests_bind; [|done].
  apply same_requests_for_each, same_requests_snapshot_volume.
Qed.

Lemma only_snapshot_failures_accepts (ec2 : EC2) (r : request) :
  only_snapshot_failures ec2 ->
  (forall v Description, r <> create_snapshot v Description) ->
  answer ec2 r = None.
Proof.
  intros H Hr. destruct (answer ec2 r) as [e|] eqn:E; [|done].
  destruct (H r e E) as (v & d & _ & -> & _). by destruct (Hr v d).
Qed.

Lemma volume_loop_returns (ec2 : EC2) (vs : list Volume) :
  only_snapshot_failures ec2 ->
  for_each vs (snapshot_volume ec2) =
    Run (vs ≫= fun v => log (snapshot_volume ec2 v)) (Returns tt).
Proof.
  intros H. apply for_each_all_continue. intros v _.
  rewrite snapshot_volume_cases.
  destruct (is_true (has_pending_snapshot v)); [done|].
  destruct (answer ec2 _) as [e|] eqn:E; [|done].
  by destruct (H _ _ E) as (? & ? & ? & _ & ->).
Qed.

Lemma snapshot_instance_continues (ec2 : EC2) (i : Instance) :
  only_snapshot_failures ec2 ->
  res (snapshot_instance ec2 i) = Returns Continue.
Proof.
  intros H. unfold snapshot_instance, call.
  rewrite (volume_loop_returns ec2 (i_volumes i) H).
  rewrite !(only_snapshot_failures_accepts ec2 _ H) by done.
  by destruct (String.eqb (i_state i) "running").
Qed.

Lemma throttled_only_snapshot_failures : only_snapshot_failures throttled.
Proof.
  intros r e. simpl. unfold refusing.
  destruct r as [| | | | |v d]; simpl; try done.
  destruct (String.eqb (v_id v) "v-1"); [|done].
  intros [= <-]. by exists v, d, "RequestLimitExceeded".
Qed.

(** C6: in the snapshot orchestration a client error raised by
    [create_snapshot] on one volume is reported for that volume and the
    volume loop goes on.  It prevents nothing: the run sends the same
    requests, in the same order, and ends in the same way as it does when
    the provider accepts those snapshot requests; and when nothing else
    fails, the run returns, every selected instance is stopped and every
    volume of it that the guard lets through gets its [create_snapshot]
    request. *)
Theorem snapshot_failure_is_isolated
    (ec2 : EC2) (project : option string) (force : bool)
    (instance : option string) :
  (forall v msg,
     is_true (has_pending_snapshot v) = false ->
     answer ec2 (create_snapshot v "Created by SnapshotAlyzer 3000")
       = Some (ClientError msg) ->
     snapshot_volume ec2 v =
       Run [Print ("Creating snapshot of " +:+ v_id v);
            Call (create_snapshot v "Created by SnapshotAlyzer 3000");
            Print (" Could not snapshot " +:+ v_id v +:+ ". " +:+ msg)]
           (Returns Continue)) /\
  (calls (log (create_snapshots ec2 project force instance)) =
     calls (log (create_snapshots (accepting_snapshots ec2)
                                  project force instance)) /\
   res (create_snapshots ec2 project force instance) =
     res (create_snapshots (accepting_snapshots ec2)
                           project force instance)) /\
  (only_snapshot_failures ec2 ->
   negb (truthy project) && negb force = false ->
   res (create_snapshots ec2 project force instance) = Returns tt /\
   forall i, i ∈ fetch ec2 (filter_instances project instance) ->
     Call (stop i) ∈ log (create_snapshots ec2 project force instance) /\
     forall v, v ∈ i_volumes i ->
       is_true (has_pending_snapshot v) = false ->
       Call (create_snapshot v "Created by SnapshotAlyzer 3000")
         ∈ log (create_snapshots ec2 project force instance)).
Proof.
  split; [|split].
  - intros v msg Hguard Hanswer.
    by rewrite snapshot_volume_cases, Hguard, Hanswer.
  - fold (same_requests
            (create_snapshots ec2 project force instance)
            (create_snapshots (accepting_snapshots ec2)
                              project force instance)).
    unfold create_snapshots.
    destruct (negb (truthy project) && negb force); [done|].
    apply same_requests_bind; [|done].
    apply same_requests_for_each, same_requests_snapshot_instance.
  - intros Honly Hgate.
    assert (res (create_snapshots ec2 project force instance) = Returns tt)
      as Hret.
    { unfold create_snapshots. rewrite Hgate.
      rewrite for_each_all_continue; [done|].
      intros i _. by apply snapshot_instance_continues. }
    split; [done|]. intros i Hi.
    rewrite (create_snapshots_returns _ _ _ _ _ Hret).
    assert (forall e,
              e ∈ stopping i
                  ++ log (for_each (i_volumes i) (snapshot_volume ec2))
                  ++ restart i ->
              e ∈ (j ← fetch ec2 (filter_instances project instance);
                   stopping j
                   ++ log (for_each (i_volumes j) (snapshot_volume ec2))
                   ++ restart j) ++ [Print "Job's done!"]) as Hin.
    { intros e He. apply elem_of_app. left.
      apply list_elem_of_bind. by exists i. }
    split.
    + apply Hin, elem_of_app. left. unfold stopping. right. left.
    + intros v Hv Hguard. apply Hin.
      rewrite !elem_of_app. right. left.
      rewrite (volume_loop_returns ec2 _ Honly). cbn [log].
      apply list_elem_of_bind. exists v. split; [|done].
      rewrite snapshot_volume_cases, Hguard.
      destruct (answer ec2 _) as [[]|]; right; left.
Qed.

Lemma snapshot_failure_is_isolated_witness :
  snapshot_volume throttled v_1 =
    Run [Print "Creating snapshot of v-1";
         Call (create_snapshot v_1 "Created by SnapshotAlyzer 3000");
         Print " Could not snapshot v-1. RequestLimitExceeded"]
        (Returns Continue) /\
  res (create_snapshots throttled None true None) = Returns tt /\
  Call (create_snapshot v_4 "Created by SnapshotAlyzer 3000")
    ∈ log (create_snapshots throttled None true None) /\
  Call (stop i_456) ∈ log (create_snapshots throttled None true None).
Proof.
  destruct (snapshot_failure_is_isolated throttled None true None)
    as (Hreport & _ & Hgoes_on).
  destruct (Hgoes_on throttled_only_snapshot_failures eq_refl)
    as [Hret Hall].
  split; [exact (Hreport v_1 "RequestLimitExceeded" eq_refl eq_refl)|].
  split; [exact Hret|]. split.
  - apply (Hall i_789); [left | right; left | reflexivity].
  - apply (Hall i_456). right. left.
Defined.

(** The trace of the run in which the snapshot of v-1 is refused. *)
Example create_snapshots_throttled :
  calls (log (create_snapshots throttled None true None)) =
    [stop i_789; wait_until_stopped i_789;
     create_snapshot v_1 "Created by SnapshotAlyzer 3000";
     create_snapshot v_4 "Created by SnapshotAlyzer 3000";
     start i_789; wait_until_running i_789;
     stop i_456; wait_until_stopped i_456;
     create_snapshot v_3 "Created by SnapshotAlyzer 3000"].
Proof. reflexivity. Qed.


(** C2: the claim does not hold of the stop and start requests inside the
    snapshot orchestrator.  When the provider refuses to stop i-123 with a
    client error, [create_snapshots] ends in that error right after the
    request: nothing is reported and i-456 is never processed; and when it
    refuses to start i-123, the run ends in the error before i-456 is
    reached.  On the same account [stop_instances] reports the error for
    i-123 and goes on to stop i-456. *)
Theorem create_snapshots_aborts_on_refused_stop :
  create_snapshots stop_refused None true None =
    Run [Print "Stopping i-123"; Call (stop i_123)]
        (Raises (ClientError "IncorrectInstanceState")) /\
  create_snapshots start_refused None true None =
    Run [Print "Stopping i-123"; Call (stop i_123);
         Call (wait_until_stopped i_123);
         Print "Creating snapshot of v-1";
         Call (create_snapshot v_1 "Created by SnapshotAlyzer 3000");
         Print " Skipping v-2, snapshot already in progress";
         Print "Starting i-123"; Call (start i_123)]
        (Raises (ClientError "InsufficientInstanceCapacity")) /\
  stop_instances stop_refused None true None =
    Run [Print "Stopping i-123.."; Call (stop i_123);
         Print " Could not stop i-123. IncorrectInstanceState";
         Print "Stopping i-456.."; Call (stop i_456)]
        (Returns tt).
Proof. by repeat split. Qed.




(** The scenario of instance i-123 with the volumes v-1 (no snapshot)
    and v-2 (one snapshot, pending), selected by its id with [--force]: the
    instance is stopped first, v-1 gets its snapshot request, v-2 is skipped
    as in progress, and the instance, which was running, is started again. *)
Example create_snapshots_scenario_i_123 :
  create_snapshots account None true (Some "i-123") =
    Run [Print "Stopping i-123";
         Call (stop i_123);
         Call (wait_until_stopped i_123);
         Print "Creating snapshot of v-1";
         Call (create_snapshot v_1 "Created by SnapshotAlyzer 3000");
         Print " Skipping v-2, snapshot already in progress";
         Print "Starting i-123";
         Call (start i_123);
         Call (wait_until_running i_123);
         Print "Job's done!"]
        (Returns tt).
Proof. reflexivity. Qed.

(** * Further properties *)

(** ** Traces *)

Lemma calls_app (t1 t2 : list event) : calls (t1 ++ t2) = calls t1 ++ calls t2.
Proof. apply omap_app. Qed.

Lemma calls_bind {A : Type} (xs : list A) (f : A -> list event) :
  calls (xs ≫= f) = xs ≫= fun x => calls (f x).
Proof.
  induction xs as [|x xs IH]; [done|].
  by rewrite !bind_cons, calls_app, IH.
Qed.


(** Where in the trace of a loop an event of it stands. *)
Lemma elem_of_log_for_each_split {A : Type}
    (xs : list A) (body : A -> run flow) (e : event) :
  e ∈ log (for_each xs body) ->
  exists before x after,
    x ∈ xs /\ e ∈ log (body x) /\
    log (for_each xs body) = before ++ log (body x) ++ after.
Proof.
  induction xs as [|x xs IH]; [by intros ?%elem_of_nil|].
  rewrite for_each_cons. unfold mbind, run_bind.
  destruct (res (body x)) as [[]|e'] eqn:E; cbn [log res].
  - intros [He|He]%elem_of_app.
    + exists [], x, (log (for_each xs body)). split; [left | done].
    + destruct (IH He) as (before & y & after & Hy & Hy' & Hlog).
      exists (log (body x) ++ before), y, after.
      split; [by right|]. split; [done|]. by rewrite Hlog, app_assoc.
  - rewrite app_nil_r. intros He.
    exists [], x, []. split; [left|]. by rewrite app_nil_r.
  - intros He. exists [], x, []. split; [left|]. by rewrite app_nil_r.
Qed.

(** ** The requests of a snapshot run *)

Lemma snapshot_volume_calls (ec2 : EC2) (v : Volume) :
  calls (log (snapshot_volume ec2 v)) =
  if is_true (has_pending_snapshot v) then []
  else [create_snapshot v "Created by SnapshotAlyzer 3000"].
Proof.
  rewrite snapshot_volume_cases.
  destruct (is_true (has_pending_snapshot v)); [done|].
  by destruct (answer ec2 _) as [[]|].
Qed.

Lemma volume_loop_calls_on_return (ec2 : EC2) (vs : list Volume) (u : unit) :
  res (for_each vs (snapshot_volume ec2)) = Returns u ->
  calls (log (for_each vs (snapshot_volume ec2))) =
    (fun v => create_snapshot v "Created by SnapshotAlyzer 3000")
      <$> List.filter (fun v => negb (is_true (has_pending_snapshot v))) vs.
Proof.
  intros Hret.
  pose proof (for_each_returns_inv _ _ _
                (snapshot_volume_no_break ec2) Hret) as Hall.
  rewrite for_each_all_continue by done. cbn [log]. clear Hret Hall.
  rewrite calls_bind.
  induction vs as [|v vs IH]; [done|].
  rewrite bind_cons, snapshot_volume_calls, IH. simpl.
  by destruct (is_true (has_pending_snapshot v)).
Qed.

Lemma snapshot_instance_returns_volumes (ec2 : EC2) (i : Instance) (c : flow) :
  res (snapshot_instance ec2 i) = Returns c ->
  res (for_each (i_volumes i) (snapshot_volume ec2)) = Returns tt.
Proof.
  unfold snapshot_instance, call. unfold mbind, run_bind. simpl.
  destruct (answer ec2 (stop i)); simpl; [done|].
  destruct (answer ec2 (wait_until_stopped i)); simpl; [done|].
  by destruct (res (for_each (i_volumes i) (snapshot_volume ec2))) as [[]|].
Qed.

(** X2: a snapshot run that returns has sent, for every selected instance
    in selection order, exactly: its stop and the wait until it is stopped,
    a [create_snapshot] for each of its volumes that the guard lets through,
    in order, and, when the instance was listed as 'running', its start and
    the wait until it runs; and nothing else. *)
Theorem create_snapshots_request_sequence
    (ec2 : EC2) (project : option string) (force : bool)
    (instance : option string) :
  res (create_snapshots ec2 project force instance) = Returns tt ->
  calls (log (create_snapshots ec2 project force instance)) =
    fetch ec2 (filter_instances project instance) ≫= requests_for.
Proof.
  intros Hret. rewrite (create_snapshots_returns _ _ _ _ _ Hret).
  rewrite calls_app, app_nil_r, calls_bind.
  assert (forall i, i ∈ fetch ec2 (filter_instances project instance) ->
            res (snapshot_instance ec2 i) = Returns Continue) as Hall.
  { unfold create_snapshots in Hret.
    destruct (negb (truthy project) && negb force); [done|].
    unfold mbind at 1, run_bind in Hret.
    destruct (res (for_each _ (snapshot_instance ec2))) as [[]|] eqn:Hloop;
      [|done].
    by apply (for_each_returns_inv _ _ _
                (snapshot_instance_no_break ec2) Hloop). }
  induction (fetch ec2 (filter_instances project instance)) as [|i l IH];
    [done|].
  rewrite !bind_cons. f_equal.
  - rewrite !calls_app. unfold requests_for, volumes_to_snapshot.
    rewrite (volume_loop_calls_on_return ec2 _ tt).
    + f_equal. f_equal. unfold restart.
      by destruct (String.eqb (i_state i) "running").
    + apply (snapshot_instance_returns_volumes ec2 i Continue), Hall. left.
  - apply IH. intros j Hj. apply Hall. by right.
Qed.

Lemma create_snapshots_request_sequence_witness :
  calls (log (create_snapshots throttled None true None)) =
    [stop i_789; wait_until_stopped i_789;
     create_snapshot v_1 "Created by SnapshotAlyzer 3000";
     create_snapshot v_4 "Created by SnapshotAlyzer 3000";
     start i_789; wait_until_running i_789;
     stop i_456; wait_until_stopped i_456;
     create_snapshot v_3 "Created by SnapshotAlyzer 3000"].
Proof.
  apply (create_snapshots_request_sequence throttled None true None).
  reflexivity.
Defined.

(** ** How a command ends *)






(** ** A snapshot is only requested of a stopped instance *)

Lemma snapshot_instance_create_position
    (ec2 : EC2) (i : Instance) (v : Volume) (Description : string) :
  Call (create_snapshot v Description) ∈ log (snapshot_instance ec2 i) ->
  answer ec2 (stop i) = None /\
  answer ec2 (wait_until_stopped i) = None /\
  v ∈ i_volumes i /\
  exists t1 t2,
    log (snapshot_instance ec2 i) =
      stopping i ++ t1 ++ Call (create_snapshot v Description) :: t2.
Proof.
  intros Hin.
  assert (v ∈ i_volumes i) as Hv.
  { destruct (snapshot_instance_prefix ec2 i) as [k Hk].
    assert (Call (create_snapshot v Description)
              ∈ stopping i
                ++ log (for_each (i_volumes i) (snapshot_volume ec2))
                ++ restart i) as Hin'.
    { rewrite Hk. apply elem_of_app. by left. }
    rewrite !elem_of_app in Hin'. destruct Hin' as [H|[H|H]].
    - unfold stopping in H.
      repeat (apply elem_of_cons in H as [H|H]; [done|]).
      by apply elem_of_nil in H.
    - apply volume_loop_requests in H as (v' & Hv' & [= -> _] & _). done.
    - unfold restart, starting in H.
      destruct (String.eqb (i_state i) "running");
        repeat (apply elem_of_cons in H as [H|H]; [done|]);
        by apply elem_of_nil in H. }
  revert Hin. unfold snapshot_instance, stopping, call.
  unfold mbind at 1 2 3, run_bind. cbn [log res print].
  destruct (answer ec2 (stop i)); cbn [log res].
  { intros H. repeat (apply elem_of_cons in H as [H|H]; [done|]).
    by apply elem_of_nil in H. }
  destruct (answer ec2 (wait_until_stopped i)); cbn [log res].
  { intros H. repeat (apply elem_of_cons in H as [H|H]; [done|]).
    by apply elem_of_nil in H. }
  intros H. do 2 (split; [done|]). split; [done|].
  repeat (apply elem_of_cons in H as [H|H]; [done|]).
  apply list_elem_of_split in H as (t1 & t2 & Htail).
  exists t1, t2. simpl. do 3 f_equal. exact Htail.
Qed.

(** X5: whenever a snapshot run requests a snapshot of a volume, the volume
    belongs to a selected instance whose stop request the provider accepted
    and whose wait until stopped returned, and both stand in the trace
    before the snapshot request. *)
Theorem snapshot_follows_accepted_stop
    (ec2 : EC2) (project : option string) (force : bool)
    (instance : option string) (v : Volume) (Description : string) :
  Call (create_snapshot v Description)
    ∈ log (create_snapshots ec2 project force instance) ->
  exists i before after,
    i ∈ fetch ec2 (filter_instances project instance) /\
    v ∈ i_volumes i /\
    answer ec2 (stop i) = None /\
    answer ec2 (wait_until_stopped i) = None /\
    log (create_snapshots ec2 project force instance) =
      before ++ Call (create_snapshot v Description) :: after /\
    exists before1 before2 before3,
      before = before1 ++ Call (stop i) :: before2
                       ++ Call (wait_until_stopped i) :: before3.
Proof.
  unfold create_snapshots.
  destruct (negb (truthy project) && negb force); [by intros ?%elem_of_nil|].
  intros [Hin|(_ & _ & Hin)]%elem_of_log_bind;
    [|by apply list_elem_of_singleton in Hin].
  apply elem_of_log_for_each_split in Hin
    as (pre & i & post & Hi & Hin & Hlog).
  apply snapshot_instance_create_position in Hin
    as (Hstop & Hwait & Hv & t1 & t2 & Hpos).
  rewrite Hpos in Hlog.
  exists i,
    (pre ++ stopping i ++ t1),
    (t2 ++ post
     ++ match res (for_each (fetch ec2 (filter_instances project instance))
                            (snapshot_instance ec2)) with
        | Returns _ => [Print "Job's done!"]
        | Raises _ => []
        end).
  do 4 (split; [done|]). split.
  - unfold mbind, run_bind.
    destruct (res (for_each _ (snapshot_instance ec2))); cbn [log];
      rewrite Hlog, <-?app_assoc; simpl;
      by rewrite <-?app_assoc, ?app_nil_r.
  - exists (pre ++ [Print ("Stopping " +:+ i_id i)]), [], t1.
    unfold stopping. by rewrite <-!app_assoc.
Qed.

Lemma snapshot_follows_accepted_stop_witness :
  exists i before after,
    i ∈ fetch account (filter_instances None None) /\
    v_1 ∈ i_volumes i /\
    answer account (stop i) = None /\
    answer account (wait_until_stopped i) = None /\
    log (create_snapshots account None true None) =
      before ++ Call (create_snapshot v_1 "Created by SnapshotAlyzer 3000")
             :: after /\
    exists before1 before2 before3,
      before = before1 ++ Call (stop i) :: before2
                       ++ Call (wait_until_stopped i) :: before3.
Proof.
  apply (snapshot_follows_accepted_stop account None true None v_1).
  do 4 right. left.
Defined.

(** ** The listings *)

Lemma list_snapshots_log
    (ec2 : EC2) (project : option string) (list_all : bool)
    (instance : option string) :
  list_snapshots ec2 project list_all instance =
    Run (i ← fetch ec2 (filter_instances project instance);
         v ← i_volumes i;
         (fun s => Print (snapshot_row i v s)) <$> snapshots_shown list_all v)
        (Returns tt).
Proof.
  unfold list_snapshots.
  rewrite (for_each_ext _ _ (fun i =>
    Run (v ← i_volumes i;
         (fun s => Print (snapshot_row i v s)) <$> snapshots_shown list_all v)
        (Returns Continue))).
  { by rewrite for_each_all_continue. }
  intros i _.
  rewrite (for_each_ext _ _ (fun v =>
    Run ((fun s => Print (snapshot_row i v s)) <$> snapshots_shown list_all v)
        (Returns Continue))).
  { rewrite for_each_all_continue by done.
    rewrite (bind_returns _ _ tt) by done. simpl. by rewrite app_nil_r. }
  intros v _. rewrite list_snapshots_of_volume.
  rewrite (bind_returns _ _ tt) by done. simpl. by rewrite app_nil_r.
Qed.

Lemma up_to_first_completed_sublist (l : list Snapshot) :
  up_to_first_completed l `sublist_of` l.
Proof.
  induction l as [|s l IH]; [done|]. simpl.
  destruct (String.eqb (s_state s) "completed").
  - apply sublist_skip, sublist_nil_l.
  - by apply sublist_skip.
Qed.

Lemma bind_sublist_pointwise {A B : Type} (xs : list A) (f g : A -> list B) :
  (forall x, f x `sublist_of` g x) ->
  (xs ≫= f) `sublist_of` (xs ≫= g).
Proof.
  intros Hfg. induction xs as [|x xs IH]; [done|].
  rewrite !bind_cons. by apply sublist_app.
Qed.

(** X6: every row the snapshot listing prints in its default mode it also
    prints with [--all], and in the same order: the default listing is the
    [--all] listing with rows left out. *)
Theorem list_snapshots_default_within_all
    (ec2 : EC2) (project instance : option string) :
  log (list_snapshots ec2 project false instance)
    `sublist_of` log (list_snapshots ec2 project true instance).
Proof.
  rewrite !list_snapshots_log. cbn [log].
  apply bind_sublist_pointwise. intros i.
  apply bind_sublist_pointwise. intros v.
  apply fmap_sublist. simpl. apply up_to_first_completed_sublist.
Qed.


(** ** The tags of an instance as a dict *)

Lemma foldl_insert_lookup (l : list Tag) (d : gmap string string) (key : string) :
  foldl (fun d t => <[Key t := Value t]> d) d l !! key =
  match last (List.filter (fun t => String.eqb (Key t) key) l) with
  | Some t => Some (Value t)
  | None => d !! key
  end.
Proof.
  revert d. induction l as [|t l IH]; intros d; [done|]. simpl.
  rewrite IH. destruct (String.eqb_spec (Key t) key) as [Heq|Hne].
  - destruct (List.filter _ l) as [|t' l'] eqn:E.
    + simpl. by rewrite <-Heq, lookup_insert_eq.
    + rewrite last_cons_cons.
      destruct (last (t' :: l')) eqn:El; [done|].
      by apply last_None in El.
  - destruct (last (List.filter _ l)); [done|].
    by rewrite lookup_insert_ne.
Qed.

(** X8: the dict the instance listing builds from the tags maps a key to the
    value of the last tag that carries it, and has no entry for a key no tag
    carries.  So the project column of a row is the value of the last tag
    with the key 'Project', even when that value is empty, and
    '<no project>' only when there is no such tag. *)
Theorem project_column_is_last_project_tag (i : Instance) :
  (forall key,
     tags_dict i !! key = Value <$> last (tags_with_key key i)) /\
  instance_row i =
    String.concat ", "
      [i_id i; i_instance_type i; i_zone i; i_state i; i_public_dns_name i;
       match last (tags_with_key "Project" i) with
       | Some t => Value t
       | None => "<no project>"
       end].
Proof.
  assert (forall key,
            tags_dict i !! key = Value <$> last (tags_with_key key i)) as H.
  { intros key. unfold tags_dict, tags_with_key.
    rewrite foldl_insert_lookup, lookup_empty.
    by destruct (last _). }
  split; [exact H|].
  unfold instance_row. rewrite H. by destruct (last _).
Qed.

(** ** What the mutating subcommands leave alone *)

Lemma guarded_request_loop_requests
    (ec2 : EC2) (xs : list Instance) (req : Instance -> request)
    (announce : Instance -> string) (report : Instance -> string -> string)
    (r : request) :
  Call r ∈ log (for_each xs (fun i =>
                  print (announce i);;
                  try_except_ClientError
                    (call ec2 (req i);; mret Continue)
                    (fun e => print (report i e);; mret Continue))) ->
  exists i, i ∈ xs /\ r = req i.
Proof.
  intros (i & Hi & Hr)%elem_of_log_for_each. exists i. split; [done|].
  revert Hr. unfold mbind, run_bind, try_except_ClientError, call. simpl.
  destruct (answer ec2 (req i)) as [[]|]; simpl; intros Hr;
    repeat (apply elem_of_cons in Hr as [Hr|Hr]; [by simplify_eq|]);
    by apply elem_of_nil in Hr.
Qed.

(** X9: a mutating subcommand only ever sends requests for the instances it
    selected.  [stop_instances] sends nothing but stop requests,
    [start_instances] nothing but start requests, [reboot_instances]
    nothing but reboot requests; a snapshot run sends, for a selected
    instance, its stop, its start, the waits for them, and snapshots of its
    own volumes, and never a reboot. *)
Theorem mutating_commands_touch_only_selected
    (ec2 : EC2) (c : subcommand) (project : option string) (force : bool)
    (instance : option string) (r : request) :
  Call r ∈ log (mutating_command ec2 c project force instance) ->
  exists i,
    i ∈ fetch ec2 (filter_instances project instance) /\
    request_of c i r.
Proof.
  destruct c; simpl.
  - intros (i & Hi & Hr)%create_snapshots_requests. exists i.
    split; [done|].
    destruct Hr as [?|[?|[(v & Hv & ? & _)|[_ [?|?]]]]]; eauto 10.
  - unfold stop_instances.
    destruct (negb (truthy project) && negb force);
      [by intros ?%elem_of_nil|].
    apply guarded_request_loop_requests.
  - unfold start_instances.
    destruct (negb (truthy project) && negb force);
      [by intros ?%elem_of_nil|].
    apply guarded_request_loop_requests.
  - unfold reboot_instances.
    destruct (negb (truthy project) && negb force);
      [by intros ?%elem_of_nil|].
    apply guarded_request_loop_requests.
Qed.

Lemma mutating_commands_touch_only_selected_witness :
  exists i,
    i ∈ fetch account (filter_instances (Some "demo") None) /\
    request_of cmd_stop i (stop i_123).
Proof.
  apply (mutating_commands_touch_only_selected
           account cmd_stop (Some "demo") false None (stop i_123)).
  right. left.
Defined.
